(** * knockout-validated: a validation-gated observable

    Shallow embedding of [src/knockout-validated.js] and the properties of
    its validation chain.

    The JavaScript closure created by one call of [ko.validatedObservable]
    is a record of its three captured variables; every method of the
    returned object is a computation in a small state-and-exception monad
    over that record. *)

From Stdlib Require Import List String ZArith Bool Arith Lia.
From Stdlib Require Import PrimFloat.
Import ListNotations.

(** ** JavaScript values *)

Module JS.

(** A JavaScript value.  Numbers are IEEE 754 binary64, as in the language;
    functions and other objects are references, known by their identity. *)
Inductive value : Type :=
| JUndefined
| JNull
| JBool (b : bool)
| JNumber (x : float)
| JString (s : string)
| JFunction (f : nat)
| JObject (o : nat).

(** The operator [===]. *)
Definition strict_equal (a b : value) : bool :=
  match a, b with
  | JUndefined, JUndefined => true
  | JNull, JNull => true
  | JBool x, JBool y => Bool.eqb x y
  | JNumber x, JNumber y => PrimFloat.eqb x y
  | JString x, JString y => String.eqb x y
  | JFunction f, JFunction g => Nat.eqb f g
  | JObject o, JObject p => Nat.eqb o p
  | _, _ => false
  end.

(** The operator [!==]. *)
Definition strict_not_equal (a b : value) : bool := negb (strict_equal a b).

(** The operator [typeof]. *)
Definition typeof (v : value) : string :=
  match v with
  | JUndefined => "undefined"
  | JNull => "object"
  | JBool _ => "boolean"
  | JNumber _ => "number"
  | JString _ => "string"
  | JFunction _ => "function"
  | JObject _ => "object"
  end.

(** Truthiness, as tested by [if], [while] and [&&]. *)
Definition to_boolean (v : value) : bool :=
  match v with
  | JUndefined | JNull => false
  | JBool b => b
  | JNumber x => negb (PrimFloat.eqb x 0%float || PrimFloat.is_nan x)
  | JString s => negb (String.eqb s EmptyString)
  | JFunction _ | JObject _ => true
  end.

(** ** Arrays *)

(** [a[i]]: an index past the end reads [undefined]. *)
Definition get (a : list value) (i : nat) : value :=
  match nth_error a i with
  | Some v => v
  | None => JUndefined
  end.

(** [a.indexOf(x)]: the first index whose element is [=== x], or [-1]. *)
Fixpoint indexOf_from (a : list value) (x : value) (i : Z) : Z :=
  match a with
  | [] => (-1)%Z
  | y :: a' => if strict_equal y x then i else indexOf_from a' x (i + 1)%Z
  end.

Definition indexOf (a : list value) (x : value) : Z := indexOf_from a x 0%Z.

(** [a.push(x)], the array afterwards. *)
Definition push (a : list value) (x : value) : list value := a ++ [x].

(** [a.splice(start, deleteCount)], the array afterwards.  A negative
    [start] counts from the end; both arguments are clamped to the array. *)
Definition splice (a : list value) (start deleteCount : Z) : list value :=
  let len := Z.of_nat (List.length a) in
  let s := if (start <? 0)%Z then Z.max (len + start) 0 else Z.min start len in
  let d := Z.min (Z.max deleteCount 0) (len - s) in
  firstn (Z.to_nat s) a ++ skipn (Z.to_nat (s + d)) a.

End JS.

Import JS.

(** ** The reactive primitive *)

Module Ko.

(** Modelled from the spec: [ko.observable] belongs to knockout.js, an
    external library.  Section 6 of the specification gives its contract:
    a synchronous read of the current value, a synchronous write that
    triggers the observer notification, and an operation that forces a
    notification without changing the value.  [notified] records, oldest
    first, the value carried by each notification fired so far. *)
Record observable : Type := mkObservable {
  latestValue : value;
  notified : list value
}.

(** [ko.observable()] called without an argument holds [undefined]. *)
Definition observable0 : observable :=
  {| latestValue := JUndefined; notified := [] |}.

(** [obs()] *)
Definition peek (obs : observable) : value := latestValue obs.

(** [obs(v)] *)
Definition poke (v : value) (obs : observable) : observable :=
  {| latestValue := v; notified := notified obs ++ [v] |}.

(** [obs.valueHasMutated()] *)
Definition valueHasMutated (obs : observable) : observable :=
  {| latestValue := latestValue obs;
     notified := notified obs ++ [latestValue obs] |}.

End Ko.

(** ** The closure state and its monad *)

(** The variables captured by the methods of one validated observable,
    together with the trace [invoked] of the validator calls made so far
    (function called, argument passed), oldest first. *)
Record cell : Type := mkCell {
  _value : Ko.observable;
  _lastValue : value;
  _validationChain : list value;
  invoked : list (value * value)
}.

(** What a JavaScript [throw] carries here: the string literals thrown by
    the source, or the [TypeError] of calling something that is no
    function.  [OutOfFuel] is not a JavaScript exception: it marks a loop
    that was cut off by the bound of its model (see [no_OutOfFuel]). *)
Inductive exn : Type :=
| ThrowString (s : string)
| TypeError
| OutOfFuel.

Inductive outcome (A : Type) : Type :=
| Return (a : A)
| Throw (e : exn).

Arguments Return {A} a.
Arguments Throw {A} e.

(** A method body: from the closure state to its completion and the
    closure state it leaves.  A [throw] does not roll the state back. *)
Definition M (A : Type) : Type := cell -> outcome A * cell.

Definition ret {A} (a : A) : M A := fun c => (Return a, c).

Definition throw {A} (e : exn) : M A := fun c => (Throw e, c).

Definition bind {A B} (m : M A) (k : A -> M B) : M B :=
  fun c =>
    match m c with
    | (Return a, c') => k a c'
    | (Throw e, c') => (Throw e, c')
    end.

Declare Scope js_scope.
Delimit Scope js_scope with js.
Notation "x <- m ;; k" := (bind m (fun x => k))
  (at level 61, m at next level, right associativity) : js_scope.
Notation "m ;; k" := (bind m (fun _ => k))
  (at level 61, right associativity) : js_scope.
Open Scope js_scope.

(** State after a computation, and its completion. *)
Definition after {A} (m : M A) (c : cell) : cell := snd (m c).
Definition completion {A} (m : M A) (c : cell) : outcome A := fst (m c).

(** ** [ko.validatedObservable] *)

(** The object [_o] that [ko.validatedObservable] returns, and that
    [addValidator] and [removeValidator] return again for cascading.  Its
    state is the [cell] threaded through the monad. *)
Inductive handle : Type := _o.

Section ValidatedObservable.

(** What the function of identity [f] returns when called on an argument.
    Validators are the pure predicates of the specification (section 4.1):
    they read their argument only, and never call back into the cell
    (section 5). *)
Variable body : nat -> value -> value.

(** [f(arg)]: the call is recorded; calling a value that is no function
    throws a [TypeError]. *)
Definition call (f arg : value) : M value :=
  fun c =>
    match f with
    | JFunction id =>
        (Return (body id arg),
         {| _value := _value c; _lastValue := _lastValue c;
            _validationChain := _validationChain c;
            invoked := invoked c ++ [(f, arg)] |})
    | _ => (Throw TypeError, c)
    end.

(** Accesses to the captured variables. *)
Definition value_read : M value :=
  fun c => (Return (Ko.peek (_value c)), c).

Definition value_write (v : value) : M unit :=
  fun c =>
    (Return tt,
     {| _value := Ko.poke v (_value c); _lastValue := _lastValue c;
        _validationChain := _validationChain c; invoked := invoked c |}).

Definition value_valueHasMutated : M unit :=
  fun c =>
    (Return tt,
     {| _value := Ko.valueHasMutated (_value c); _lastValue := _lastValue c;
        _validationChain := _validationChain c; invoked := invoked c |}).

Definition lastValue_read : M value :=
  fun c => (Return (_lastValue c), c).

Definition lastValue_assign (v : value) : M unit :=
  fun c =>
    (Return tt,
     {| _value := _value c; _lastValue := v;
        _validationChain := _validationChain c; invoked := invoked c |}).

Definition chain_read : M (list value) :=
  fun c => (Return (_validationChain c), c).

Definition chain_assign (a : list value) : M unit :=
  fun c =>
    (Return tt,
     {| _value := _value c; _lastValue := _lastValue c;
        _validationChain := a; invoked := invoked c |}).

(** Lines 27-31: the closure state right after [ko.validatedObservable
    (initValue)].  The source creates [_value] with [ko.observable()] and
    declares [_lastValue] without an initialiser; [initValue] is not used. *)
Definition validatedObservable (initValue : value) : cell :=
  {| _value := Ko.observable0;
     _lastValue := JUndefined;
     _validationChain := [];
     invoked := [] |}.

(** Lines 122-134.  The [while] loop, with its two locals as arguments;
    [fuel] bounds the number of iterations. *)
Fixpoint runValidationChain_loop (fuel : nat) (newValue _isValid : value)
    (_index : nat) : M value :=
  chain <- chain_read ;;
  if to_boolean _isValid && (_index <? List.length chain) then
    match fuel with
    | O => throw OutOfFuel
    | S fuel' =>
        _isValid' <- call (get chain _index) newValue ;;
        runValidationChain_loop fuel' newValue _isValid' (S _index)
    end
  else ret _isValid.

(** The index grows by one in each iteration and stops at the length of
    the chain, so that many iterations are enough. *)
Definition runValidationChain (newValue : value) : M value :=
  chain <- chain_read ;;
  runValidationChain_loop (List.length chain) newValue (JBool true) 0.

(** Lines 37-40. *)
Definition read : M value := value_read.

(** Lines 42-56. *)
Definition write (newValue : value) : M unit :=
  v <- value_read ;;
  lastValue_assign v ;;
  ok <- runValidationChain newValue ;;
  if to_boolean ok then value_write newValue
  else value_valueHasMutated.

(** Lines 68-80. *)
Definition addValidator (validationFunct : value) : M handle :=
  if strict_not_equal (JString (typeof validationFunct)) (JString "function")
  then throw (ThrowString
    "Invalid argument for addValidator() - Argument 1 MUST be a function")
  else
    chain <- chain_read ;;
    (if (indexOf chain validationFunct =? -1)%Z
     then chain_assign (push chain validationFunct)
     else ret tt) ;;
    ret _o.

(** Lines 89-103. *)
Definition removeValidator (validationFunct : value) : M handle :=
  if strict_not_equal (JString (typeof validationFunct)) (JString "function")
  then throw (ThrowString
    "Invalid argument for removeValidator() - Argument 1 MUST be a function")
  else
    chain <- chain_read ;;
    let _index := indexOf chain validationFunct in
    (if negb (_index =? -1)%Z
     then chain_assign (splice chain _index 1)
     else ret tt) ;;
    ret _o.

(** Lines 111-114. *)
Definition hasChanged : M bool :=
  v <- value_read ;;
  l <- lastValue_read ;;
  ret (strict_not_equal v l).

(** ** Histories of a cell *)

(** One call on the public interface of the cell. *)
Inductive operation : Type :=
| Read
| Write (newValue : value)
| AddValidator (validationFunct : value)
| RemoveValidator (validationFunct : value)
| HasChanged.

(** The closure state a call leaves, whether it returned or threw. *)
Definition step (op : operation) (c : cell) : cell :=
  match op with
  | Read => after read c
  | Write v => after (write v) c
  | AddValidator f => after (addValidator f) c
  | RemoveValidator f => after (removeValidator f) c
  | HasChanged => after hasChanged c
  end.

Definition run (ops : list operation) (c : cell) : cell :=
  fold_left (fun c op => step op c) ops c.

(** The states a cell can be in: those a program reaches from the
    constructor through the public interface. *)
Inductive reachable : cell -> Prop :=
| reachable_new initValue : reachable (validatedObservable initValue)
| reachable_step op c : reachable c -> reachable (step op c).

Definition is_write (op : operation) : bool :=
  match op with
  | Write _ => true
  | _ => false
  end.

End ValidatedObservable.

(** ** Sample validators *)

Module Samples.

(** Four validators, by identity:
    0 is [function (v) { return typeof v === 'number' && v > 100; }],
    1 is [... && v >= 0], 2 is [... && v <= 10], and every other
    identity is [function (v) { return false; }]. *)
Definition body (f : nat) (arg : value) : value :=
  match f, arg with
  | 0, JNumber x => JBool (PrimFloat.ltb 100%float x)
  | 1, JNumber x => JBool (PrimFloat.leb 0%float x)
  | 2, JNumber x => JBool (PrimFloat.leb x 10%float)
  | _, _ => JBool false
  end.

Definition gt100 : value := JFunction 0.
Definition ge0 : value := JFunction 1.
Definition le10 : value := JFunction 2.
Definition never : value := JFunction 3.

Definition num (x : float) : value := JNumber x.

(** [var o = ko.validatedObservable(123);] *)
Definition fresh : cell := validatedObservable (num 123).

(** [o.addValidator(ge0).addValidator(le10);] *)
Definition bounded : cell :=
  run body [AddValidator ge0; AddValidator le10] (validatedObservable (num 0)).

(** [o.addValidator(gt100);] *)
Definition guarded : cell := run body [AddValidator gt100] fresh.

(** [o.addValidator(ge0).addValidator(le10); o(5);] *)
Definition holding5 : cell := run body [Write (num 5)] bounded.

(** [o.addValidator(le10).addValidator(ge0);] *)
Definition bounded_rev : cell :=
  run body [AddValidator le10; AddValidator ge0] fresh.

(** [o(NaN); o.addValidator(never);] *)
Definition holding_nan : cell :=
  run body [Write (num nan); AddValidator never] fresh.

End Samples.

(** ** The chain as a pure scan *)

Section Scan.

Variable body : nat -> value -> value.

(** What calling [f] on [arg] returns, for a [f] that is a function. *)
Definition result_of (f arg : value) : value :=
  match f with
  | JFunction id => body id arg
  | _ => JUndefined
  end.

(** The validators that the loop of [runValidationChain] calls when it
    stands before the suffix [fs] of the chain with [_isValid] in hand,
    and the value of [_isValid] it ends with. *)
Fixpoint scan (fs : list value) (newValue _isValid : value)
    : value * list value :=
  match fs with
  | [] => (_isValid, [])
  | f :: fs' =>
      if to_boolean _isValid then
        let (r, called) := scan fs' newValue (result_of f newValue) in
        (r, f :: called)
      else (_isValid, [])
  end.

(** The closure state with more validator calls on record. *)
Definition record_calls (c : cell) (fs : list value) (arg : value) : cell :=
  {| _value := _value c; _lastValue := _lastValue c;
     _validationChain := _validationChain c;
     invoked := invoked c ++ map (fun f => (f, arg)) fs |}.

(** The validator [f] rejects the candidate: its result is falsy. *)
Definition rejects (f candidate : value) : Prop :=
  to_boolean (result_of f candidate) = false.

End Scan.

(** The chain of a cell is well formed: functions only, each at most once. *)
Definition is_function (v : value) : Prop := exists f, v = JFunction f.

Definition chain_ok (c : cell) : Prop :=
  Forall is_function (_validationChain c) /\ NoDup (_validationChain c).

(** The closure state with another chain. *)
Definition with_chain (c : cell) (a : list value) : cell :=
  {| _value := _value c; _lastValue := _lastValue c;
     _validationChain := a; invoked := invoked c |}.

(** Two closure states hold the same three captured variables; they may
    differ in the record of calls only. *)
Definition same_variables (c c' : cell) : Prop :=
  _value c' = _value c /\ _lastValue c' = _lastValue c /\
  _validationChain c' = _validationChain c.

(** How many entries of the array are [===] to [x]. *)
Definition occurrences (a : list value) (x : value) : nat :=
  List.length (filter (fun y => strict_equal y x) a).

(** The value is the number NaN. *)
Definition is_NaN (v : value) : bool :=
  match v with
  | JNumber x => PrimFloat.is_nan x
  | _ => false
  end.

(** The array [a] with the entries that are [===] to [x] left out. *)
Definition without (a : list value) (x : value) : list value :=
  filter (fun y => negb (strict_equal y x)) a.

(** Whether [runValidationChain(candidate)] comes back truthy in state [c],
    that is, whether [write] takes its first branch. *)
Definition accepts (body : nat -> value -> value) (c : cell)
    (candidate : value) : bool :=
  match completion (runValidationChain body candidate) c with
  | Return r => to_boolean r
  | Throw _ => false
  end.

(** The value [read()] returns in state [c]. *)
Definition current (c : cell) : value := Ko.peek (_value c).

(** The notifications fired so far in state [c]. *)
Definition notifications (c : cell) : list value := Ko.notified (_value c).

(** * Properties *)

(** ** Values and arrays *)

Lemma typeof_function v :
  strict_not_equal (JString (typeof v)) (JString "function") = false
  <-> is_function v.
Proof.
  unfold is_function. split.
  - destruct v; cbn; try discriminate. eauto.
  - intros [f ->]. reflexivity.
Qed.

Lemma typeof_not_function v :
  strict_not_equal (JString (typeof v)) (JString "function") = true
  <-> ~ is_function v.
Proof.
  rewrite <- typeof_function.
  destruct (strict_not_equal _ _); split; intros; congruence.
Qed.

Lemma strict_equal_function v f :
  strict_equal v (JFunction f) = true <-> v = JFunction f.
Proof.
  destruct v; cbn; try (split; [discriminate | congruence]).
  rewrite Nat.eqb_eq. split; congruence.
Qed.

Lemma indexOf_from_range a x i :
  indexOf_from a x i = (-1)%Z \/
  (i <= indexOf_from a x i < i + Z.of_nat (List.length a))%Z.
Proof.
  revert i. induction a as [|y a IH]; intros i; cbn [indexOf_from].
  - now left.
  - destruct (strict_equal y x).
    + right. cbn [List.length]. lia.
    + destruct (IH (i + 1)%Z) as [->|H]; [now left|right].
      cbn [List.length]. lia.
Qed.

Lemma indexOf_from_absent a f i :
  (0 <= i)%Z ->
  indexOf_from a (JFunction f) i = (-1)%Z <-> ~ In (JFunction f) a.
Proof.
  revert i. induction a as [|y a IH]; intros i Hi; cbn [indexOf_from In].
  - tauto.
  - destruct (strict_equal y (JFunction f)) eqn:E.
    + apply strict_equal_function in E. split; [lia | tauto].
    + rewrite IH by lia. split; [|tauto].
      intros H [->|H']; [|tauto].
      cbn in E. rewrite Nat.eqb_refl in E. discriminate.
Qed.

Lemma indexOf_absent a f :
  indexOf a (JFunction f) = (-1)%Z <-> ~ In (JFunction f) a.
Proof. apply indexOf_from_absent. lia. Qed.

Lemma indexOf_from_present a f i :
  In (JFunction f) a ->
  exists l1 l2, a = l1 ++ JFunction f :: l2 /\ ~ In (JFunction f) l1 /\
    indexOf_from a (JFunction f) i = (i + Z.of_nat (List.length l1))%Z.
Proof.
  revert i. induction a as [|y a IH]; intros i; cbn [indexOf_from In].
  - tauto.
  - intros H. destruct (strict_equal y (JFunction f)) eqn:E.
    + apply strict_equal_function in E. subst y.
      exists [], a. cbn. split; [reflexivity|split; [tauto|lia]].
    + destruct H as [->|H].
      { cbn in E. rewrite Nat.eqb_refl in E. discriminate. }
      destruct (IH (i + 1)%Z H) as (l1 & l2 & -> & Hn & ->).
      exists (y :: l1), l2. cbn [app List.length In]. repeat split.
      * intros [->|H']; [|tauto].
        cbn in E. rewrite Nat.eqb_refl in E. discriminate.
      * lia.
Qed.

Lemma indexOf_present a f :
  In (JFunction f) a ->
  exists l1 l2, a = l1 ++ JFunction f :: l2 /\ ~ In (JFunction f) l1 /\
    indexOf a (JFunction f) = Z.of_nat (List.length l1).
Proof.
  intros H. destruct (indexOf_from_present a f 0 H) as (l1 & l2 & ? & ? & ?).
  exists l1, l2. repeat split; trivial.
Qed.

Lemma splice_one l1 x l2 :
  splice (l1 ++ x :: l2) (Z.of_nat (List.length l1)) 1 = l1 ++ l2.
Proof.
  unfold splice. rewrite length_app. cbn [List.length].
  destruct (Z.ltb_spec (Z.of_nat (List.length l1)) 0); [lia|].
  rewrite Z.min_l by lia.
  rewrite Z.max_l by lia. rewrite Z.min_l by lia.
  rewrite Nat2Z.id.
  replace (Z.to_nat (Z.of_nat (List.length l1) + 1)) with (S (List.length l1))
    by lia.
  rewrite firstn_app, Nat.sub_diag, firstn_all. cbn [firstn].
  rewrite app_nil_r.
  change (l1 ++ x :: l2) with (l1 ++ [x] ++ l2).
  rewrite app_assoc.
  replace (S (List.length l1)) with (List.length (l1 ++ [x]))
    by (rewrite length_app; cbn; lia).
  rewrite skipn_app, skipn_all, Nat.sub_diag. reflexivity.
Qed.

Lemma skipn_get (a : list value) i :
  i < List.length a -> skipn i a = get a i :: skipn (S i) a.
Proof.
  revert i. induction a as [|y a IH]; intros [|i] H; cbn in *; try lia.
  - reflexivity.
  - rewrite IH by lia. reflexivity.
Qed.

Lemma get_In (a : list value) i : i < List.length a -> In (get a i) a.
Proof.
  intros H. unfold get. destruct (nth_error a i) eqn:E.
  - eapply nth_error_In; eauto.
  - apply nth_error_None in E. lia.
Qed.

Lemma record_calls_nil c arg : record_calls c [] arg = c.
Proof. destruct c. unfold record_calls. cbn. now rewrite app_nil_r. Qed.

Lemma record_calls_app c fs gs arg :
  record_calls (record_calls c fs arg) gs arg = record_calls c (fs ++ gs) arg.
Proof. unfold record_calls. cbn. now rewrite map_app, app_assoc. Qed.

(** ** The validation chain *)

Section Chain.

Variable body : nat -> value -> value.

Lemma scan_falsy fs nv acc :
  to_boolean acc = false -> scan body fs nv acc = (acc, []).
Proof. intros H. destruct fs; cbn; [|rewrite H]; reflexivity. Qed.

Lemma scan_cons f fs nv acc :
  to_boolean acc = true ->
  scan body (f :: fs) nv acc =
    (fst (scan body fs nv (result_of body f nv)),
     f :: snd (scan body fs nv (result_of body f nv))).
Proof.
  intros H. cbn. rewrite H.
  destruct (scan body fs nv (result_of body f nv)). reflexivity.
Qed.

(** The loop computes [scan] on the rest of the chain, and never runs out
    of iterations when given as many as there are validators left. *)
Lemma runValidationChain_loop_scan fuel : forall nv acc index c,
  Forall is_function (_validationChain c) ->
  List.length (_validationChain c) - index <= fuel ->
  runValidationChain_loop body fuel nv acc index c =
    (Return (fst (scan body (skipn index (_validationChain c)) nv acc)),
     record_calls c (snd (scan body (skipn index (_validationChain c)) nv acc))
       nv).
Proof.
  induction fuel as [|fuel IH]; intros nv acc index c Hfun Hfuel.
  - cbn [runValidationChain_loop]. unfold bind, chain_read.
    destruct (to_boolean acc) eqn:Hacc; cbn [andb].
    + destruct (Nat.ltb_spec index (List.length (_validationChain c))); [lia|].
      rewrite skipn_all2 by lia. cbn. now rewrite record_calls_nil.
    + rewrite scan_falsy by assumption. cbn. now rewrite record_calls_nil.
  - cbn [runValidationChain_loop]. unfold bind at 1. unfold chain_read at 1.
    destruct (to_boolean acc) eqn:Hacc; cbn [andb].
    + destruct (Nat.ltb_spec index (List.length (_validationChain c)))
        as [Hlt|Hge].
      * rewrite (skipn_get _ _ Hlt), scan_cons by assumption. cbn [fst snd].
        pose proof (get_In _ _ Hlt) as Hin.
        rewrite Forall_forall in Hfun.
        destruct (Hfun _ Hin) as [id Hid].
        unfold bind, call. rewrite Hid.
        rewrite <- Hid at 1.
        match goal with
        | |- runValidationChain_loop _ _ _ _ _ ?c' = _ =>
            change c' with (record_calls c [get (_validationChain c) index] nv)
              || replace c' with
                   (record_calls c [get (_validationChain c) index] nv)
                   by (unfold record_calls; cbn; now rewrite Hid)
        end.
        rewrite IH.
        -- cbn [record_calls _validationChain]. rewrite record_calls_app.
           cbn [result_of app]. rewrite Hid. reflexivity.
        -- cbn. now apply Forall_forall.
        -- cbn. lia.
      * rewrite skipn_all2 by lia. cbn. now rewrite record_calls_nil.
    + rewrite scan_falsy by assumption. cbn. now rewrite record_calls_nil.
Qed.

Lemma runValidationChain_scan nv c :
  Forall is_function (_validationChain c) ->
  runValidationChain body nv c =
    (Return (fst (scan body (_validationChain c) nv (JBool true))),
     record_calls c (snd (scan body (_validationChain c) nv (JBool true))) nv).
Proof.
  intros H. unfold runValidationChain, bind, chain_read.
  rewrite runValidationChain_loop_scan by (trivial; lia).
  reflexivity.
Qed.

End Chain.

(** ** What [scan] calls and returns *)

Section ScanFacts.

Variable body : nat -> value -> value.

(** The validators called are an initial segment of the chain, in order. *)
Lemma scan_prefix fs nv : forall acc,
  snd (scan body fs nv acc) =
    firstn (List.length (snd (scan body fs nv acc))) fs.
Proof.
  induction fs as [|f fs IH]; intros acc; [reflexivity|].
  destruct (to_boolean acc) eqn:Hacc.
  - rewrite scan_cons by assumption. cbn [snd List.length firstn].
    now rewrite <- IH.
  - now rewrite scan_falsy.
Qed.

(** Nothing is called beyond the first validator that rejects. *)
Lemma scan_stops fs nv : forall acc i f,
  nth_error fs i = Some f -> rejects body f nv ->
  List.length (snd (scan body fs nv acc)) <= S i.
Proof.
  induction fs as [|g fs IH]; intros acc i f Hnth Hrej.
  - cbn. lia.
  - destruct (to_boolean acc) eqn:Hacc.
    + rewrite scan_cons by assumption. cbn [snd List.length].
      destruct i as [|i]; cbn in Hnth.
      * injection Hnth as ->. rewrite scan_falsy by exact Hrej. cbn. lia.
      * specialize (IH (result_of body g nv) i f Hnth Hrej). lia.
    + rewrite scan_falsy by assumption. cbn. lia.
Qed.

(** The scan ends truthy exactly when it starts truthy and nobody rejects. *)
Lemma scan_accepts fs nv : forall acc,
  to_boolean (fst (scan body fs nv acc)) = true <->
  to_boolean acc = true /\ forall f, In f fs -> ~ rejects body f nv.
Proof.
  induction fs as [|f fs IH]; intros acc.
  - cbn. intuition.
  - destruct (to_boolean acc) eqn:Hacc.
    + rewrite scan_cons by assumption. cbn [fst]. rewrite IH.
      unfold rejects. cbn [In]. split.
      * intros [H1 H2]. split; [reflexivity|].
        intros g [<-|Hg]; [congruence | now apply H2].
      * intros [_ H]. split.
        -- specialize (H f (or_introl eq_refl)).
           now destruct (to_boolean (result_of body f nv)).
        -- intros g Hg. apply H. now right.
    + rewrite scan_falsy by assumption. cbn [fst]. rewrite Hacc.
      split; [discriminate | intros [? _]; discriminate].
Qed.

Lemma scan_rejects fs nv f :
  In f fs -> rejects body f nv ->
  to_boolean (fst (scan body fs nv (JBool true))) = false.
Proof.
  intros Hin Hrej.
  destruct (to_boolean (fst (scan body fs nv (JBool true)))) eqn:E;
    [|reflexivity].
  apply scan_accepts in E. destruct E as [_ E]. now elim (E f Hin).
Qed.

End ScanFacts.

(** ** The methods, one by one *)

Section Methods.

Variable body : nat -> value -> value.

(** The loop touches nothing but the record of calls. *)
Lemma runValidationChain_loop_frame fuel : forall nv acc index c,
  same_variables c (after (runValidationChain_loop body fuel nv acc index) c).
Proof.
  unfold after.
  induction fuel as [|fuel IH]; intros nv acc index c;
    cbn [runValidationChain_loop]; unfold bind at 1; unfold chain_read at 1;
    destruct (to_boolean acc && (index <? List.length (_validationChain c)));
    try (cbn; unfold same_variables; tauto).
  unfold bind, call.
  destruct (get (_validationChain c) index);
    try (cbn; unfold same_variables; tauto).
  match goal with
  | |- context [runValidationChain_loop _ _ _ ?r _ ?c'] =>
      specialize (IH nv r (S index) c')
  end.
  exact IH.
Qed.

Lemma runValidationChain_frame nv c :
  same_variables c (after (runValidationChain body nv) c).
Proof.
  unfold runValidationChain, after, bind, chain_read.
  apply runValidationChain_loop_frame.
Qed.

(** [write] on a well-formed chain: it returns, and leaves this state. *)
Lemma write_scan nv c :
  Forall is_function (_validationChain c) ->
  write body nv c =
    (Return tt,
     {| _value :=
          if to_boolean (fst (scan body (_validationChain c) nv (JBool true)))
          then Ko.poke nv (_value c)
          else Ko.valueHasMutated (_value c);
        _lastValue := current c;
        _validationChain := _validationChain c;
        invoked := invoked c ++
          map (fun f => (f, nv))
            (snd (scan body (_validationChain c) nv (JBool true))) |}).
Proof.
  intros H. unfold write, bind at 1. unfold value_read at 1.
  unfold bind at 1. unfold lastValue_assign at 1.
  unfold bind. rewrite runValidationChain_scan by exact H.
  cbn [_validationChain].
  destruct (to_boolean (fst (scan body (_validationChain c) nv (JBool true))));
    reflexivity.
Qed.

Lemma addValidator_not_function v c :
  ~ is_function v ->
  addValidator v c =
    (Throw (ThrowString
       "Invalid argument for addValidator() - Argument 1 MUST be a function"),
     c).
Proof.
  intros H. apply typeof_not_function in H.
  unfold addValidator. now rewrite H.
Qed.

Lemma removeValidator_not_function v c :
  ~ is_function v ->
  removeValidator v c =
    (Throw (ThrowString
       "Invalid argument for removeValidator() - Argument 1 MUST be a function"),
     c).
Proof.
  intros H. apply typeof_not_function in H.
  unfold removeValidator. now rewrite H.
Qed.

Lemma addValidator_absent f c :
  ~ In (JFunction f) (_validationChain c) ->
  addValidator (JFunction f) c =
    (Return _o, with_chain c (_validationChain c ++ [JFunction f])).
Proof.
  intros H. apply indexOf_absent in H.
  unfold addValidator. cbn [typeof strict_not_equal strict_equal String.eqb].
  cbn. unfold bind, chain_read. rewrite H. reflexivity.
Qed.

Lemma addValidator_present f c :
  In (JFunction f) (_validationChain c) ->
  addValidator (JFunction f) c = (Return _o, c).
Proof.
  intros H. unfold addValidator. cbn. unfold bind, chain_read.
  destruct (Z.eqb_spec (indexOf (_validationChain c) (JFunction f)) (-1))
    as [E|E]; [|reflexivity].
  apply indexOf_absent in E. contradiction.
Qed.

Lemma removeValidator_absent f c :
  ~ In (JFunction f) (_validationChain c) ->
  removeValidator (JFunction f) c = (Return _o, c).
Proof.
  intros H. apply indexOf_absent in H.
  unfold removeValidator. cbn. unfold bind, chain_read. rewrite H.
  reflexivity.
Qed.

Lemma removeValidator_present f c l1 l2 :
  _validationChain c = l1 ++ JFunction f :: l2 ->
  ~ In (JFunction f) l1 ->
  removeValidator (JFunction f) c = (Return _o, with_chain c (l1 ++ l2)).
Proof.
  intros E Hn.
  assert (Hin : In (JFunction f) (_validationChain c)).
  { rewrite E. apply in_or_app. right. now left. }
  destruct (indexOf_present _ f Hin) as (k1 & k2 & E' & Hn' & Hi).
  assert (List.length k1 = List.length l1) as Hlen.
  { rewrite E in E'.
    destruct (Nat.lt_trichotomy (List.length k1) (List.length l1))
      as [Hlt|[Heq|Hgt]]; [exfalso| exact Heq |exfalso].
    - apply Hn. apply (f_equal (fun l => nth_error l (List.length k1))) in E'.
      rewrite nth_error_app1 in E' by exact Hlt.
      rewrite nth_error_app2, Nat.sub_diag in E' by lia. cbn in E'.
      eapply nth_error_In; eauto.
    - apply Hn'. apply (f_equal (fun l => nth_error l (List.length l1))) in E'.
      rewrite nth_error_app2, Nat.sub_diag in E' by lia. cbn in E'.
      rewrite nth_error_app1 in E' by exact Hgt.
      eapply nth_error_In; eauto. }
  unfold removeValidator. cbn. unfold bind, chain_read. rewrite Hi.
  destruct (Z.eqb_spec (Z.of_nat (List.length k1)) (-1)); [lia|]. cbn.
  unfold chain_assign, with_chain. rewrite Hlen, E, splice_one. reflexivity.
Qed.

End Methods.

(** ** Invariants of the reachable states *)

Section Invariants.

Variable body : nat -> value -> value.

Lemma with_chain_same c : with_chain c (_validationChain c) = c.
Proof. now destruct c. Qed.

Lemma write_frame nv c :
  _validationChain (after (write body nv) c) = _validationChain c.
Proof.
  unfold write, after, bind at 1. unfold value_read at 1.
  unfold bind at 1. unfold lastValue_assign at 1. unfold bind.
  match goal with
  | |- context [runValidationChain body nv ?c0] =>
      pose proof (runValidationChain_frame body nv c0) as (_ & _ & H);
      unfold after in H;
      destruct (runValidationChain body nv c0) as [[r|e] c1]
  end; cbn in H |- *; [|exact H].
  destruct (to_boolean r); exact H.
Qed.

(** The loop always comes to its end within the iterations it is given. *)
Lemma no_OutOfFuel fuel : forall nv acc index c,
  List.length (_validationChain c) - index <= fuel ->
  completion (runValidationChain_loop body fuel nv acc index) c
    <> Throw OutOfFuel.
Proof.
  unfold completion.
  induction fuel as [|fuel IH]; intros nv acc index c Hfuel;
    cbn [runValidationChain_loop]; unfold bind at 1; unfold chain_read at 1;
    destruct (to_boolean acc); cbn [andb]; try (cbn; discriminate);
    destruct (Nat.ltb_spec index (List.length (_validationChain c)));
    try (cbn; discriminate); try lia.
  unfold bind, call.
  destruct (get (_validationChain c) index); try (cbn; discriminate).
  apply IH. cbn. lia.
Qed.

Lemma In_function_decidable (a : list value) f :
  In (JFunction f) a \/ ~ In (JFunction f) a.
Proof.
  induction a as [|y a [IH|IH]]; [right; intros [] | left; now right |].
  destruct (strict_equal y (JFunction f)) eqn:E.
  - apply strict_equal_function in E. left. now left.
  - right. intros [->|H]; [|contradiction].
    cbn in E. rewrite Nat.eqb_refl in E. discriminate.
Qed.

Lemma function_or_not v : is_function v \/ ~ is_function v.
Proof.
  destruct v; try (right; intros [? ?]; discriminate). left. now eexists.
Qed.

Lemma runValidationChain_terminates nv c :
  completion (runValidationChain body nv) c <> Throw OutOfFuel.
Proof.
  unfold runValidationChain, completion, bind, chain_read.
  apply no_OutOfFuel. lia.
Qed.

Lemma chain_ok_step op c : chain_ok c -> chain_ok (step body op c).
Proof.
  intros [Hfun Hnd].
  destruct op as [|nv|v|v|]; cbn [step]; try (split; assumption).
  - unfold chain_ok. rewrite write_frame. now split.
  - unfold after. destruct (function_or_not v) as [[f ->]|Hv].
    + destruct (In_function_decidable (_validationChain c) f) as [Hin|Hin].
      * rewrite addValidator_present by exact Hin. now split.
      * rewrite addValidator_absent by exact Hin. split; cbn.
        -- apply Forall_app. split; [assumption|].
           constructor; [now exists f | constructor].
        -- apply NoDup_app. repeat split; trivial.
           ++ repeat constructor. intros [].
           ++ intros x Hx [<-|[]]. contradiction.
    + rewrite addValidator_not_function by exact Hv. now split.
  - unfold after. destruct (function_or_not v) as [[f ->]|Hv].
    + destruct (In_function_decidable (_validationChain c) f) as [Hin|Hin].
      * destruct (indexOf_present _ _ Hin) as (l1 & l2 & E & Hn & _).
        rewrite (removeValidator_present _ _ _ _ E Hn). rewrite E in Hfun, Hnd.
        split; cbn.
        -- apply Forall_app in Hfun. destruct Hfun as [H1 H2].
           apply Forall_app. split; [assumption|]. now inversion H2.
        -- eapply NoDup_remove_1; eauto.
      * rewrite removeValidator_absent by exact Hin. now split.
    + rewrite removeValidator_not_function by exact Hv. now split.
Qed.

Lemma chain_ok_new initValue : chain_ok (validatedObservable initValue).
Proof. split; cbn; constructor. Qed.

Lemma reachable_chain_ok c : reachable body c -> chain_ok c.
Proof.
  induction 1 as [initValue|op c _ IH].
  - apply chain_ok_new.
  - now apply chain_ok_step.
Qed.

Lemma reachable_run ops : forall c,
  reachable body c -> reachable body (run body ops c).
Proof.
  induction ops as [|op ops IH]; intros c H; [exact H|].
  cbn. apply IH. now constructor.
Qed.

End Invariants.

(** ** Frames, identity and uniqueness *)

Section Frames.

Variable body : nat -> value -> value.

Lemma addValidator_frame fn c :
  _value (after (addValidator fn) c) = _value c /\
  _lastValue (after (addValidator fn) c) = _lastValue c.
Proof.
  unfold after. destruct (function_or_not fn) as [[f ->]|Hn].
  - destruct (In_function_decidable (_validationChain c) f) as [Hin|Hin].
    + rewrite addValidator_present by exact Hin. now split.
    + rewrite addValidator_absent by exact Hin. now split.
  - rewrite addValidator_not_function by exact Hn. now split.
Qed.

Lemma removeValidator_frame fn c :
  _value (after (removeValidator fn) c) = _value c /\
  _lastValue (after (removeValidator fn) c) = _lastValue c.
Proof.
  unfold after. destruct (function_or_not fn) as [[f ->]|Hn].
  - destruct (In_function_decidable (_validationChain c) f) as [Hin|Hin].
    + destruct (indexOf_present _ _ Hin) as (l1 & l2 & E & Hn & _).
      rewrite (removeValidator_present _ _ _ _ E Hn). now split.
    + rewrite removeValidator_absent by exact Hin. now split.
  - rewrite removeValidator_not_function by exact Hn. now split.
Qed.

(** A step that is no [write] leaves the value and the snapshot alone. *)
Lemma step_frame op c :
  is_write op = false ->
  _value (step body op c) = _value c /\
  _lastValue (step body op c) = _lastValue c.
Proof.
  destruct op; cbn [is_write step]; intros H; try discriminate.
  - now split.
  - apply addValidator_frame.
  - apply removeValidator_frame.
  - now split.
Qed.

(** So does any run of calls that has no [write] among them. *)
Lemma run_frame ops : forall c,
  forallb (fun op => negb (is_write op)) ops = true ->
  _value (run body ops c) = _value c /\
  _lastValue (run body ops c) = _lastValue c.
Proof.
  induction ops as [|op ops IH]; intros c H; [now split|].
  cbn in H. apply andb_true_iff in H. destruct H as [Hop Hops].
  apply negb_true_iff in Hop.
  destruct (step_frame op c Hop) as [Hv Hl].
  destruct (IH (step body op c) Hops) as [Hv' Hl'].
  cbn [run fold_left]. fold (run body ops (step body op c)).
  split; congruence.
Qed.

Lemma hasChanged_eq c :
  hasChanged c = (Return (strict_not_equal (current c) (_lastValue c)), c).
Proof. reflexivity. Qed.

Lemma read_eq c : read c = (Return (current c), c).
Proof. reflexivity. Qed.

(** Only NaN is not [===] to itself. *)
Lemma strict_equal_self v : strict_equal v v = negb (is_NaN v).
Proof.
  destruct v; cbn; trivial.
  - now destruct b.
  - unfold PrimFloat.is_nan. now rewrite negb_involutive.
  - apply String.eqb_refl.
  - apply Nat.eqb_refl.
  - apply Nat.eqb_refl.
Qed.

Lemma occurrences_absent a f :
  ~ In (JFunction f) a -> occurrences a (JFunction f) = 0.
Proof.
  unfold occurrences. induction a as [|y a IH]; intros H; [reflexivity|].
  cbn [filter]. destruct (strict_equal y (JFunction f)) eqn:E.
  - apply strict_equal_function in E. elim H. now left.
  - apply IH. intros H'. apply H. now right.
Qed.

Lemma occurrences_present a f :
  NoDup a -> In (JFunction f) a -> occurrences a (JFunction f) = 1.
Proof.
  unfold occurrences. induction 1 as [|y a Hy Hnd IH]; intros Hin; [elim Hin|].
  cbn [filter]. destruct (strict_equal y (JFunction f)) eqn:E.
  - apply strict_equal_function in E. subst y. cbn [List.length].
    f_equal. now apply occurrences_absent.
  - destruct Hin as [->|Hin]; [|now apply IH].
    cbn in E. rewrite Nat.eqb_refl in E. discriminate.
Qed.

Lemma occurrences_not_function a x :
  Forall is_function a -> ~ is_function x -> occurrences a x = 0.
Proof.
  unfold occurrences. induction 1 as [|y a [g ->] _ IH]; intros Hx;
    [reflexivity|].
  cbn [filter]. destruct x; cbn [strict_equal]; try now apply IH.
  elim Hx. now eexists.
Qed.

(** In an array without repetition, an element found at index [j] is among
    the first [k] elements only if [j < k]. *)
Lemma NoDup_firstn_index (l : list value) j k g :
  NoDup l -> nth_error l j = Some g -> In g (firstn k l) -> j < k.
Proof.
  intros Hnd Hj Hin. apply In_nth_error in Hin. destruct Hin as [n Hn].
  rewrite nth_error_firstn in Hn.
  destruct (Nat.ltb_spec n k) as [Hlt|]; [|discriminate].
  assert (n < List.length l) by (apply nth_error_Some; congruence).
  rewrite NoDup_nth_error in Hnd.
  rewrite (Hnd n j) in Hlt; [exact Hlt | assumption | congruence].
Qed.

(** The scan calls every validator that has only accepting ones before it. *)
Lemma scan_reaches fs nv : forall acc i,
  to_boolean acc = true ->
  i < List.length fs ->
  (forall j f, j < i -> nth_error fs j = Some f -> ~ rejects body f nv) ->
  i < List.length (snd (scan body fs nv acc)).
Proof.
  induction fs as [|g fs IH]; intros acc i Hacc Hi Hprev; cbn in Hi; [lia|].
  rewrite scan_cons by exact Hacc. cbn [snd List.length].
  destruct i as [|i]; [lia|].
  apply -> Nat.succ_lt_mono. apply IH.
  - specialize (Hprev 0 g (Nat.lt_0_succ i) eq_refl). unfold rejects in Hprev.
    now destruct (to_boolean (result_of body g nv)).
  - lia.
  - intros j f Hj Hf. apply (Hprev (S j) f); [lia | exact Hf].
Qed.

End Frames.

(** * The claims of the specification *)

Section Claims.

Variable body : nat -> value -> value.

(** C1, as the code has it.  The claim says that a cell constructed with
    [v] reads [v] before any write.  The constructor never passes its
    argument to [ko.observable()]: whatever the argument, the cell reads
    [undefined], which for the seed 123 of the usage note is not [=== 123];
    it still reads [undefined] after [gt100] is added and the write of 50
    is rejected.  The other half of the claim holds: construction calls no
    validator. *)
Theorem construction_drops_initValue :
  (forall initValue,
     completion read (validatedObservable initValue) = Return JUndefined /\
     invoked (validatedObservable initValue) = []) /\
  completion read (validatedObservable (JNumber 123)) <> Return (JNumber 123) /\
  strict_equal (current (validatedObservable (JNumber 123))) (JNumber 123)
    = false /\
  completion read
    (run Samples.body [AddValidator Samples.gt100; Write (Samples.num 50)]
       (validatedObservable (JNumber 123))) = Return JUndefined.
Proof.
  split; [intros initValue; split; reflexivity|].
  split; [discriminate|]. split; reflexivity.
Qed.

(** C2.  If some validator of the chain rejects the candidate, then
    [write(candidate)] returns, [read()] still returns the value committed
    before, and exactly one notification is fired, carrying that unchanged
    value. *)
Theorem rejected_write_notifies c candidate f :
  reachable body c ->
  In f (_validationChain c) ->
  rejects body f candidate ->
  let c' := after (write body candidate) c in
  completion (write body candidate) c = Return tt /\
  current c' = current c /\
  completion read c' = Return (current c) /\
  notifications c' = notifications c ++ [current c].
Proof.
  intros Hreach Hin Hrej c'. subst c'.
  apply reachable_chain_ok in Hreach. destruct Hreach as [Hfun _].
  unfold after, completion. rewrite write_scan by exact Hfun.
  rewrite (scan_rejects body _ _ _ Hin Hrej).
  repeat split.
Qed.

(** C3.  A cell with no validator accepts every candidate: after
    [write(candidate)] the current value is the candidate. *)
Theorem empty_chain_accepts c candidate :
  _validationChain c = [] ->
  completion (write body candidate) c = Return tt /\
  current (after (write body candidate) c) = candidate /\
  completion read (after (write body candidate) c) = Return candidate.
Proof.
  intros E. unfold after, completion.
  rewrite write_scan by (rewrite E; constructor).
  rewrite E. repeat split.
Qed.

(** C6.  [addValidator(fn)] and [removeValidator(fn)] throw at once when
    [typeof fn] is not ['function'], and then leave the closure state, the
    chain included, as it was; [addValidator(null)] on a fresh cell throws
    and the chain stays empty. *)
Theorem validators_must_be_functions c fn :
  typeof fn <> "function"%string ->
  (addValidator fn c =
     (Throw (ThrowString
        "Invalid argument for addValidator() - Argument 1 MUST be a function"),
      c) /\
   removeValidator fn c =
     (Throw (ThrowString
        "Invalid argument for removeValidator() - Argument 1 MUST be a function"),
      c)) /\
  (forall initValue,
     completion (addValidator JNull) (validatedObservable initValue) =
       Throw (ThrowString
         "Invalid argument for addValidator() - Argument 1 MUST be a function")
     /\ _validationChain
          (after (addValidator JNull) (validatedObservable initValue)) = []).
Proof.
  intros H.
  assert (Hn : ~ is_function fn) by (intros [f ->]; now apply H).
  split; [split|].
  - now apply addValidator_not_function.
  - now apply removeValidator_not_function.
  - intros initValue. split; reflexivity.
Qed.

(** C10.  [write] never changes the validator chain, whatever its outcome;
    [addValidator] and [removeValidator] never change the wrapped value nor
    the snapshot of the last write, so [read()] and [hasChanged()] answer
    the same before and after them. *)
Theorem chain_and_value_frames c newValue fn :
  _validationChain (after (write body newValue) c) = _validationChain c /\
  (let c' := after (addValidator fn) c in
   _value c' = _value c /\ _lastValue c' = _lastValue c /\
   completion read c' = completion read c /\
   completion hasChanged c' = completion hasChanged c) /\
  (let c' := after (removeValidator fn) c in
   _value c' = _value c /\ _lastValue c' = _lastValue c /\
   completion read c' = completion read c /\
   completion hasChanged c' = completion hasChanged c).
Proof.
  split; [apply write_frame|].
  split; cbv zeta.
  - destruct (addValidator_frame fn c) as [Hv Hl].
    unfold completion, read, hasChanged, bind, value_read, lastValue_read.
    cbn. rewrite Hv, Hl. repeat split.
  - destruct (removeValidator_frame fn c) as [Hv Hl].
    unfold completion, read, hasChanged, bind, value_read, lastValue_read.
    cbn. rewrite Hv, Hl. repeat split.
Qed.

(** C4.  During [write(candidate)] the validators called are the first
    [k] entries of the chain, each once, in the order of the chain, which
    is the order of registration because [addValidator] appends.  A
    validator is called exactly when all the ones before it accepted: once
    the validator at index [i] has rejected, nothing at an index greater
    than [i] is called. *)
Theorem chain_runs_in_order_and_stops c candidate :
  reachable body c ->
  (exists k,
     k <= List.length (_validationChain c) /\
     invoked (after (write body candidate) c) =
       invoked c ++
       map (fun f => (f, candidate)) (firstn k (_validationChain c)) /\
     (forall i,
        i < List.length (_validationChain c) ->
        (forall j f, j < i -> nth_error (_validationChain c) j = Some f ->
                     ~ rejects body f candidate) ->
        i < k) /\
     (forall i f,
        nth_error (_validationChain c) i = Some f ->
        rejects body f candidate ->
        k <= S i /\
        forall j g,
          i < j -> nth_error (_validationChain c) j = Some g ->
          ~ In g (firstn k (_validationChain c)))) /\
  (forall f,
     ~ In (JFunction f) (_validationChain c) ->
     _validationChain (after (addValidator (JFunction f)) c) =
       _validationChain c ++ [JFunction f]).
Proof.
  intros Hreach. apply reachable_chain_ok in Hreach.
  destruct Hreach as [Hfun Hnd]. split.
  - set (called := snd (scan body (_validationChain c) candidate (JBool true))).
    exists (List.length called). unfold after.
    rewrite write_scan by exact Hfun. cbn [snd invoked]. fold called.
    assert (Hpre : called = firstn (List.length called) (_validationChain c))
      by apply scan_prefix.
    split; [|split; [|split]].
    + rewrite Hpre at 1. rewrite length_firstn. lia.
    + now rewrite <- Hpre.
    + intros i Hi Hprev. now apply scan_reaches.
    + intros i f Hnth Hrej.
      pose proof (scan_stops body _ candidate (JBool true) i f Hnth Hrej)
        as Hk.
      fold called in Hk. split; [exact Hk|].
      intros j g Hj Hg Hin.
      pose proof (NoDup_firstn_index _ _ _ _ Hnd Hg Hin). lia.
  - intros f Hf. unfold after. now rewrite addValidator_absent.
Qed.

(** X5.  What [hasChanged()] returns after [write(v)]: whether the current
    value is [!==] the snapshot, which is the value that was current when
    the call began.  After an accepted write of a [v] that is [!==] the
    value before, this is true.  After a rejected write it is false, unless
    the current value is NaN: NaN is [!==] itself, and the answer is then
    true. *)
Theorem hasChanged_after_write c candidate :
  reachable body c ->
  let c' := after (write body candidate) c in
  (_lastValue c' = current c /\
   completion hasChanged c' =
     Return (strict_not_equal (current c') (current c))) /\
  ((forall f, In f (_validationChain c) -> ~ rejects body f candidate) ->
   current c' = candidate /\
   (strict_not_equal candidate (current c) = true ->
    completion hasChanged c' = Return true)) /\
  (forall f, In f (_validationChain c) -> rejects body f candidate ->
   completion hasChanged c' = Return (is_NaN (current c)) /\
   (is_NaN (current c) = false -> completion hasChanged c' = Return false)).
Proof.
  intros Hreach c'. subst c'. apply reachable_chain_ok in Hreach.
  destruct Hreach as [Hfun _]. unfold after, completion.
  rewrite write_scan by exact Hfun. rewrite hasChanged_eq.
  cbn [fst snd _lastValue]. split; [now split|]. split.
  - intros Hacc.
    assert (E : to_boolean
      (fst (scan body (_validationChain c) candidate (JBool true))) = true)
      by (apply scan_accepts; now split).
    rewrite E. split; [reflexivity|]. intros Hd.
    change (current _) with candidate at 1. now rewrite Hd.
  - intros f Hin Hrej. rewrite (scan_rejects body _ _ _ Hin Hrej).
    change (current (mkCell _ _ _ _)) with (current c).
    unfold strict_not_equal. rewrite strict_equal_self, negb_involutive.
    split; [reflexivity|]. now intros ->.
Qed.

(** C7.  In every state of a cell the chain holds no entry twice: no value
    occurs in it more than once under [===].  [addValidator(f)] with [f]
    already in the chain changes nothing, and after adding the same
    function twice it occurs exactly once. *)
Theorem chain_entries_are_unique c :
  reachable body c ->
  NoDup (_validationChain c) /\
  (forall x, occurrences (_validationChain c) x <= 1) /\
  (forall f, In f (_validationChain c) -> addValidator f c = (Return _o, c)) /\
  (forall f,
     occurrences
       (_validationChain
          (after (addValidator (JFunction f))
             (after (addValidator (JFunction f)) c)))
       (JFunction f) = 1).
Proof.
  intros Hreach. apply reachable_chain_ok in Hreach.
  destruct Hreach as [Hfun Hnd]. split; [exact Hnd|]. split; [|split].
  - intros x. destruct (function_or_not x) as [[f ->]|Hx].
    + destruct (In_function_decidable (_validationChain c) f) as [Hin|Hin].
      * now rewrite occurrences_present.
      * rewrite occurrences_absent by exact Hin. lia.
    + rewrite occurrences_not_function by assumption. lia.
  - intros f Hin. rewrite Forall_forall in Hfun.
    destruct (Hfun f Hin) as [g ->]. now apply addValidator_present.
  - intros f. unfold after.
    destruct (In_function_decidable (_validationChain c) f) as [Hin|Hin].
    + rewrite (addValidator_present f c Hin). cbn [snd].
      rewrite (addValidator_present f c Hin). cbn [snd].
      now apply occurrences_present.
    + rewrite (addValidator_absent f c Hin). cbn [snd].
      rewrite addValidator_present
        by (cbn; apply in_or_app; right; now left).
      cbn [snd with_chain _validationChain].
      apply occurrences_present.
      * apply NoDup_app. repeat split; trivial.
        -- repeat constructor. intros [].
        -- intros x Hx [<-|[]]. contradiction.
      * apply in_or_app. right. now left.
Qed.

(** C8, amended.  When [f] is not yet in the chain, [addValidator(f)]
    followed by [removeValidator(f)] gives back the very state from before
    the [addValidator(f)] call.  Removing a function that is in the chain
    takes its one entry out and keeps the others in their order; removing
    one that is absent changes nothing. *)
Theorem remove_undoes_add_of_new c f :
  reachable body c ->
  (~ In (JFunction f) (_validationChain c) ->
   after (removeValidator (JFunction f))
     (after (addValidator (JFunction f)) c) = c /\
   removeValidator (JFunction f) c = (Return _o, c)) /\
  (forall l1 l2,
     _validationChain c = l1 ++ JFunction f :: l2 ->
     removeValidator (JFunction f) c = (Return _o, with_chain c (l1 ++ l2)) /\
     ~ In (JFunction f) (l1 ++ l2)).
Proof.
  intros Hreach. apply reachable_chain_ok in Hreach.
  destruct Hreach as [_ Hnd]. split.
  - intros Hin. split; [|now apply removeValidator_absent].
    unfold after. rewrite (addValidator_absent f c Hin). cbn [snd].
    rewrite (removeValidator_present f _ (_validationChain c) [])
      by (trivial; reflexivity).
    cbn [snd]. unfold with_chain. cbn. rewrite app_nil_r.
    now destruct c.
  - intros l1 l2 E. rewrite E in Hnd.
    pose proof (NoDup_remove_2 _ _ _ Hnd) as Hout. split; [|exact Hout].
    apply removeValidator_present; [exact E|].
    intros H. apply Hout. apply in_or_app. now left.
Qed.

(** C9.  As long as [write] has not been called, [hasChanged()] returns
    false: the wrapped value and the snapshot both still hold [undefined],
    whatever argument the cell was constructed with. *)
Theorem hasChanged_before_first_write initValue ops :
  forallb (fun op => negb (is_write op)) ops = true ->
  let c := run body ops (validatedObservable initValue) in
  completion hasChanged c = Return false /\
  current c = JUndefined /\ _lastValue c = JUndefined.
Proof.
  intros Hops c. subst c.
  destruct (run_frame body ops (validatedObservable initValue) Hops)
    as [Hv Hl].
  unfold completion. rewrite hasChanged_eq. unfold current.
  rewrite Hv, Hl. repeat split.
Qed.

End Claims.

(** * The claims on sample cells *)

Lemma samples_reachable ops initValue :
  reachable Samples.body
    (run Samples.body ops (validatedObservable initValue)).
Proof. apply reachable_run. constructor. Qed.

(** A write of 15 to a cell that holds 5 behind [ge0] and [le10]. *)
Lemma rejected_write_notifies_witness :
  reachable Samples.body Samples.holding5 /\
  In Samples.le10 (_validationChain Samples.holding5) /\
  rejects Samples.body Samples.le10 (Samples.num 15) /\
  (let c' := after (write Samples.body (Samples.num 15)) Samples.holding5 in
   completion (write Samples.body (Samples.num 15)) Samples.holding5
     = Return tt /\
   current c' = current Samples.holding5 /\
   completion read c' = Return (current Samples.holding5) /\
   notifications c' =
     notifications Samples.holding5 ++ [current Samples.holding5]).
Proof.
  assert (Hr : reachable Samples.body Samples.holding5)
    by (apply (samples_reachable
                 [AddValidator Samples.ge0; AddValidator Samples.le10;
                  Write (Samples.num 5)])).
  assert (Hi : In Samples.le10 (_validationChain Samples.holding5))
    by (vm_compute; tauto).
  assert (Hj : rejects Samples.body Samples.le10 (Samples.num 15))
    by reflexivity.
  split; [exact Hr|]. split; [exact Hi|]. split; [exact Hj|].
  exact (rejected_write_notifies Samples.body Samples.holding5
           (Samples.num 15) Samples.le10 Hr Hi Hj).
Defined.

(** A write of 50 to a fresh cell. *)
Lemma empty_chain_accepts_witness :
  _validationChain Samples.fresh = [] /\
  completion (write Samples.body (Samples.num 50)) Samples.fresh = Return tt /\
  current (after (write Samples.body (Samples.num 50)) Samples.fresh)
    = Samples.num 50 /\
  completion read (after (write Samples.body (Samples.num 50)) Samples.fresh)
    = Return (Samples.num 50).
Proof.
  split; [reflexivity|].
  exact (empty_chain_accepts Samples.body Samples.fresh (Samples.num 50)
           eq_refl).
Defined.

(** A write of -1 behind [ge0] and [le10]: [ge0] rejects at index 0, so
    [le10] at index 1 is not called. *)
Lemma chain_runs_in_order_and_stops_witness :
  reachable Samples.body Samples.holding5 /\
  exists k,
    k <= 1 /\
    invoked (after (write Samples.body (Samples.num (-1))) Samples.holding5) =
      invoked Samples.holding5 ++
      map (fun f => (f, Samples.num (-1)))
        (firstn k (_validationChain Samples.holding5)) /\
    ~ In Samples.le10 (firstn k (_validationChain Samples.holding5)).
Proof.
  assert (Hr : reachable Samples.body Samples.holding5)
    by (apply (samples_reachable
                 [AddValidator Samples.ge0; AddValidator Samples.le10;
                  Write (Samples.num 5)])).
  split; [exact Hr|].
  destruct (chain_runs_in_order_and_stops Samples.body Samples.holding5
              (Samples.num (-1)) Hr) as [(k & _ & Hinv & _ & Hstop) _].
  destruct (Hstop 0 Samples.ge0 eq_refl eq_refl) as [Hk Hlater].
  exists k. split; [exact Hk|]. split; [exact Hinv|].
  exact (Hlater 1 Samples.le10 (le_n 1) eq_refl).
Defined.

(** C5, at the input where the code departs from it.  The claim says that
    [hasChanged()] returns false after every rejected write.  On a cell
    that holds NaN, [never] rejects the write of 1 and the value stays NaN,
    yet [hasChanged()] returns true, because the source compares with
    [!==] and NaN is not [===] to itself. *)
Lemma rejected_write_over_nan_reports_change :
  reachable Samples.body Samples.holding_nan /\
  In Samples.never (_validationChain Samples.holding_nan) /\
  rejects Samples.body Samples.never (Samples.num 1) /\
  current (after (write Samples.body (Samples.num 1)) Samples.holding_nan)
    = current Samples.holding_nan /\
  completion hasChanged
    (after (write Samples.body (Samples.num 1)) Samples.holding_nan)
    = Return true /\
  completion hasChanged
    (after (write Samples.body (Samples.num 1)) Samples.holding_nan)
    <> Return false.
Proof.
  split.
  { apply (samples_reachable
             [Write (Samples.num nan); AddValidator Samples.never]). }
  split; [vm_compute; tauto|].
  split; [reflexivity|].
  split; [vm_compute; reflexivity|].
  split; [vm_compute; reflexivity | vm_compute; discriminate].
Qed.

(** A write of 15, rejected, and a write of 7, accepted, to a cell that
    holds 5. *)
Lemma hasChanged_after_write_example :
  reachable Samples.body Samples.holding5 /\
  completion hasChanged
    (after (write Samples.body (Samples.num 15)) Samples.holding5)
    = Return false /\
  completion hasChanged
    (after (write Samples.body (Samples.num 7)) Samples.holding5)
    = Return true.
Proof.
  assert (Hr : reachable Samples.body Samples.holding5)
    by (apply (samples_reachable
                 [AddValidator Samples.ge0; AddValidator Samples.le10;
                  Write (Samples.num 5)])).
  split; [exact Hr|]. split.
  - destruct (hasChanged_after_write Samples.body Samples.holding5
                (Samples.num 15) Hr) as (_ & _ & Hrej).
    destruct (Hrej Samples.le10 (or_intror (or_introl eq_refl)) eq_refl)
      as [_ H].
    exact (H eq_refl).
  - destruct (hasChanged_after_write Samples.body Samples.holding5
                (Samples.num 7) Hr) as (_ & Hacc & _).
    assert (Hall : forall f, In f (_validationChain Samples.holding5) ->
                   ~ rejects Samples.body f (Samples.num 7)).
    { intros f [<-|[<-|[]]]; vm_compute; discriminate. }
    destruct (Hacc Hall) as [_ H].
    exact (H eq_refl).
Defined.

(** [addValidator(null)] and [removeValidator(null)] on a fresh cell. *)
Lemma validators_must_be_functions_witness :
  typeof JNull <> "function"%string /\
  completion (addValidator JNull) Samples.fresh =
    Throw (ThrowString
      "Invalid argument for addValidator() - Argument 1 MUST be a function") /\
  _validationChain (after (addValidator JNull) Samples.fresh) = [] /\
  after (removeValidator JNull) Samples.fresh = Samples.fresh.
Proof.
  assert (Hn : typeof JNull <> "function"%string) by discriminate.
  split; [exact Hn|].
  destruct (validators_must_be_functions Samples.fresh JNull Hn)
    as [[Hadd Hrem] _].
  unfold completion, after. rewrite Hadd, Hrem. repeat split.
Defined.

(** [gt100] added twice to a fresh cell. *)
Lemma chain_entries_are_unique_witness :
  reachable Samples.body Samples.guarded /\
  NoDup (_validationChain Samples.guarded) /\
  addValidator Samples.gt100 Samples.guarded = (Return _o, Samples.guarded).
Proof.
  assert (Hr : reachable Samples.body Samples.guarded)
    by (apply (samples_reachable [AddValidator Samples.gt100])).
  split; [exact Hr|].
  destruct (chain_entries_are_unique Samples.body Samples.guarded Hr)
    as (Hnd & _ & Hadd & _).
  split; [exact Hnd|].
  exact (Hadd Samples.gt100 (or_introl eq_refl)).
Defined.

(** C8, as stated, fails when the function is already registered: on a
    cell whose chain is [[gt100]], adding [gt100] changes nothing and
    removing it empties the chain. *)
Lemma add_then_remove_of_registered_validator :
  reachable Samples.body Samples.guarded /\
  _validationChain Samples.guarded = [Samples.gt100] /\
  _validationChain
    (after (removeValidator Samples.gt100)
       (after (addValidator Samples.gt100) Samples.guarded)) = [] /\
  _validationChain
    (after (removeValidator Samples.gt100)
       (after (addValidator Samples.gt100) Samples.guarded))
    <> _validationChain Samples.guarded.
Proof.
  split; [apply (samples_reachable [AddValidator Samples.gt100])|].
  split; [reflexivity|]. split; [reflexivity|].
  vm_compute. discriminate.
Qed.

(** [le10] added to, then removed from, a cell that has [gt100] only. *)
Lemma remove_undoes_add_of_new_witness :
  reachable Samples.body Samples.guarded /\
  ~ In Samples.le10 (_validationChain Samples.guarded) /\
  after (removeValidator Samples.le10)
    (after (addValidator Samples.le10) Samples.guarded) = Samples.guarded.
Proof.
  assert (Hr : reachable Samples.body Samples.guarded)
    by (apply (samples_reachable [AddValidator Samples.gt100])).
  assert (Hn : ~ In Samples.le10 (_validationChain Samples.guarded))
    by (intros [H|[]]; discriminate H).
  split; [exact Hr|]. split; [exact Hn|].
  destruct (remove_undoes_add_of_new Samples.body Samples.guarded 2 Hr)
    as [Hnew _].
  exact (proj1 (Hnew Hn)).
Defined.

(** Validators go in and out of a cell made with 123, and nothing is
    written. *)
Lemma hasChanged_before_first_write_witness :
  forallb (fun op => negb (is_write op))
    [AddValidator Samples.gt100; Read; RemoveValidator Samples.gt100;
     HasChanged] = true /\
  completion hasChanged
    (run Samples.body
       [AddValidator Samples.gt100; Read; RemoveValidator Samples.gt100;
        HasChanged]
       (validatedObservable (Samples.num 123))) = Return false.
Proof.
  split; [reflexivity|].
  exact (proj1 (hasChanged_before_first_write Samples.body (Samples.num 123)
                  [AddValidator Samples.gt100; Read;
                   RemoveValidator Samples.gt100; HasChanged] eq_refl)).
Defined.

(** * Further properties of the methods *)

(** ** Arrays without an entry *)

Lemma without_absent a f :
  ~ In (JFunction f) a -> without a (JFunction f) = a.
Proof.
  unfold without. induction a as [|y a IH]; intros H; [reflexivity|].
  cbn [filter]. destruct (strict_equal y (JFunction f)) eqn:E.
  - apply strict_equal_function in E. elim H. now left.
  - cbn [negb]. f_equal. apply IH. intros H'. apply H. now right.
Qed.

Lemma without_present l1 l2 f :
  ~ In (JFunction f) l1 -> ~ In (JFunction f) l2 ->
  without (l1 ++ JFunction f :: l2) (JFunction f) = l1 ++ l2.
Proof.
  intros H1 H2. unfold without. rewrite filter_app. cbn [filter strict_equal].
  rewrite Nat.eqb_refl. cbn [negb].
  fold (without l1 (JFunction f)). fold (without l2 (JFunction f)).
  now rewrite !without_absent.
Qed.

Lemma without_not_In a x f :
  In x (without a (JFunction f)) <-> In x a /\ x <> JFunction f.
Proof.
  unfold without. rewrite filter_In. split; intros [H1 H2]; split; trivial.
  - intros ->. cbn in H2. rewrite Nat.eqb_refl in H2. discriminate.
  - destruct (strict_equal x (JFunction f)) eqn:E; [|reflexivity].
    apply strict_equal_function in E. contradiction.
Qed.

Lemma without_comm a x y :
  without (without a x) y = without (without a y) x.
Proof.
  unfold without. induction a as [|z a IH]; [reflexivity|].
  cbn [filter].
  destruct (strict_equal z x) eqn:Ex, (strict_equal z y) eqn:Ey;
    cbn [negb filter]; rewrite ?Ex, ?Ey; cbn [negb]; now rewrite IH.
Qed.

Lemma In_firstn_In (l : list value) k g : In g (firstn k l) -> In g l.
Proof.
  intros H. rewrite <- (firstn_skipn k l). apply in_or_app. now left.
Qed.

(** ** More on the scan and on single methods *)

Section MoreMethods.

Variable body : nat -> value -> value.

(** When nobody rejects, the scan calls the whole chain. *)
Lemma scan_calls_all fs nv : forall acc,
  to_boolean acc = true ->
  (forall f, In f fs -> ~ rejects body f nv) ->
  snd (scan body fs nv acc) = fs.
Proof.
  induction fs as [|f fs IH]; intros acc Hacc Hall; [reflexivity|].
  rewrite scan_cons by exact Hacc. cbn [snd]. f_equal. apply IH.
  - specialize (Hall f (or_introl eq_refl)). unfold rejects in Hall.
    now destruct (to_boolean (result_of body f nv)).
  - intros g Hg. apply Hall. now right.
Qed.

Lemma accepts_scan c candidate :
  Forall is_function (_validationChain c) ->
  accepts body c candidate =
    to_boolean (fst (scan body (_validationChain c) candidate (JBool true))).
Proof.
  intros H. unfold accepts, completion.
  now rewrite runValidationChain_scan by exact H.
Qed.

(** [write] of a candidate that nobody rejects. *)
Lemma write_accepted nv c :
  Forall is_function (_validationChain c) ->
  (forall f, In f (_validationChain c) -> ~ rejects body f nv) ->
  write body nv c =
    (Return tt,
     mkCell (Ko.poke nv (_value c)) (current c) (_validationChain c)
       (invoked c ++ map (fun f => (f, nv)) (_validationChain c))).
Proof.
  intros Hfun Hall. rewrite write_scan by exact Hfun.
  assert (E : to_boolean
    (fst (scan body (_validationChain c) nv (JBool true))) = true)
    by (apply scan_accepts; now split).
  now rewrite E, scan_calls_all.
Qed.

(** [removeValidator] of a function, on a chain without repetition. *)
Lemma removeValidator_without f c :
  NoDup (_validationChain c) ->
  removeValidator (JFunction f) c =
    (Return _o, with_chain c (without (_validationChain c) (JFunction f))).
Proof.
  intros Hnd.
  destruct (In_function_decidable (_validationChain c) f) as [Hin|Hin].
  - destruct (indexOf_present _ _ Hin) as (l1 & l2 & E & Hn & _).
    rewrite (removeValidator_present _ _ _ _ E Hn). rewrite E in Hnd |- *.
    rewrite without_present; trivial.
    intros H2. apply (NoDup_remove_2 _ _ _ Hnd). apply in_or_app. now right.
  - rewrite removeValidator_absent by exact Hin.
    now rewrite without_absent, with_chain_same.
Qed.

Lemma step_reachable op c : reachable body c -> reachable body (step body op c).
Proof. now constructor. Qed.

(** A step that is no [write] calls no validator. *)
Lemma step_invoked op c :
  is_write op = false -> invoked (step body op c) = invoked c.
Proof.
  destruct op as [|nv|fn|fn|]; cbn [is_write step]; intros H;
    try discriminate; try reflexivity; unfold after.
  - destruct (function_or_not fn) as [[f ->]|Hn].
    + destruct (In_function_decidable (_validationChain c) f) as [Hin|Hin].
      * now rewrite addValidator_present.
      * now rewrite addValidator_absent.
    + now rewrite addValidator_not_function.
  - destruct (function_or_not fn) as [[f ->]|Hn].
    + destruct (In_function_decidable (_validationChain c) f) as [Hin|Hin].
      * destruct (indexOf_present _ _ Hin) as (l1 & l2 & E & Hn & _).
        now rewrite (removeValidator_present _ _ _ _ E Hn).
      * now rewrite removeValidator_absent.
    + now rewrite removeValidator_not_function.
Qed.

End MoreMethods.

(** ** What a user of the cell can rely on *)

Section Extras.

Variable body : nat -> value -> value.

(** X1.  On every cell [runValidationChain(candidate)] returns, and its
    result is truthy exactly when no validator of the chain rejects the
    candidate. *)
Theorem runValidationChain_accepts_iff c candidate :
  reachable body c ->
  (exists r, completion (runValidationChain body candidate) c = Return r) /\
  (accepts body c candidate = true <->
   forall f, In f (_validationChain c) -> ~ rejects body f candidate).
Proof.
  intros Hreach. apply reachable_chain_ok in Hreach.
  destruct Hreach as [Hfun _]. split.
  - unfold completion. rewrite runValidationChain_scan by exact Hfun.
    now eexists.
  - rewrite accepts_scan by exact Hfun. rewrite scan_accepts. cbn. tauto.
Qed.

(** X2.  Whether a candidate is accepted does not depend on the order of
    the chain: two cells whose chains hold the same validators accept the
    same candidates. *)
Theorem acceptance_ignores_order c1 c2 candidate :
  reachable body c1 -> reachable body c2 ->
  (forall f, In f (_validationChain c1) <-> In f (_validationChain c2)) ->
  accepts body c1 candidate = accepts body c2 candidate.
Proof.
  intros H1 H2 Hsame.
  apply reachable_chain_ok in H1. apply reachable_chain_ok in H2.
  destruct H1 as [Hf1 _], H2 as [Hf2 _].
  rewrite !accepts_scan by assumption.
  apply eq_true_iff_eq. rewrite !scan_accepts.
  split; intros [Ht Hall]; (split; [exact Ht|]); intros f Hf;
    apply Hall; now apply Hsame.
Qed.

(** X3.  When no validator rejects the candidate, [write(candidate)]
    returns, the candidate becomes the current value, the snapshot is the
    value from before, and every validator of the chain has been called
    once, with the candidate, in the order of the chain. *)
Theorem accepted_write_commits c candidate :
  reachable body c ->
  (forall f, In f (_validationChain c) -> ~ rejects body f candidate) ->
  let c' := after (write body candidate) c in
  completion (write body candidate) c = Return tt /\
  current c' = candidate /\
  _lastValue c' = current c /\
  invoked c' =
    invoked c ++ map (fun f => (f, candidate)) (_validationChain c).
Proof.
  intros Hreach Hall c'. subst c'. apply reachable_chain_ok in Hreach.
  destruct Hreach as [Hfun _]. unfold after, completion.
  rewrite (write_accepted body candidate c Hfun Hall). repeat split.
Qed.

(** X4.  The chain of a cell holds functions only, so [write] never throws:
    it returns, and the current value afterwards is the candidate if the
    chain accepts it and the value from before if not. *)
Theorem write_never_throws c candidate :
  reachable body c ->
  Forall is_function (_validationChain c) /\
  completion (write body candidate) c = Return tt /\
  current (after (write body candidate) c) =
    (if accepts body c candidate then candidate else current c).
Proof.
  intros Hreach. apply reachable_chain_ok in Hreach.
  destruct Hreach as [Hfun _]. split; [exact Hfun|].
  unfold after, completion. rewrite accepts_scan by exact Hfun.
  rewrite write_scan by exact Hfun.
  destruct (to_boolean
    (fst (scan body (_validationChain c) candidate (JBool true))));
    now split.
Qed.

(** X6.  [hasChanged()] looks at the last write only: when an accepted
    value other than NaN is written a second time, the value stays and
    [hasChanged()] returns false. *)
Theorem repeated_write_reports_no_change c v :
  reachable body c ->
  (forall f, In f (_validationChain c) -> ~ rejects body f v) ->
  is_NaN v = false ->
  let c2 := after (write body v) (after (write body v) c) in
  current c2 = v /\ completion hasChanged c2 = Return false.
Proof.
  intros Hreach Hall Hnan c2. subst c2.
  apply reachable_chain_ok in Hreach. destruct Hreach as [Hfun _].
  unfold after, completion.
  rewrite (write_accepted body v c Hfun Hall). cbn [snd].
  rewrite write_accepted by (cbn [_validationChain]; assumption).
  rewrite hasChanged_eq. cbn [fst snd _lastValue _value].
  change (current (mkCell (Ko.poke v _) _ _ _)) with v.
  unfold strict_not_equal. rewrite strict_equal_self, Hnan. now split.
Qed.

(** X7.  [removeValidator(f)] returns the cell with [f] gone from the
    chain and every other validator kept, in the order they had. *)
Theorem removeValidator_deletes_entry c f :
  reachable body c ->
  removeValidator (JFunction f) c =
    (Return _o, with_chain c (without (_validationChain c) (JFunction f))) /\
  ~ In (JFunction f)
      (_validationChain (after (removeValidator (JFunction f)) c)) /\
  (forall g, g <> JFunction f ->
     In g (_validationChain (after (removeValidator (JFunction f)) c)) <->
     In g (_validationChain c)).
Proof.
  intros Hreach. apply reachable_chain_ok in Hreach.
  destruct Hreach as [_ Hnd]. unfold after.
  rewrite (removeValidator_without f c Hnd). cbn [snd].
  split; [reflexivity|]. cbn [with_chain _validationChain]. split.
  - rewrite without_not_In. tauto.
  - intros g Hg. rewrite without_not_In. tauto.
Qed.

(** X8.  Removing a validator twice is the same as removing it once, and
    two removals can be made in either order. *)
Theorem removeValidator_idempotent_and_commutes c f g :
  reachable body c ->
  after (removeValidator (JFunction f))
    (after (removeValidator (JFunction f)) c) =
    after (removeValidator (JFunction f)) c /\
  after (removeValidator (JFunction g))
    (after (removeValidator (JFunction f)) c) =
    after (removeValidator (JFunction f))
      (after (removeValidator (JFunction g)) c).
Proof.
  intros Hreach.
  pose proof (reachable_chain_ok body _
    (step_reachable body (RemoveValidator (JFunction f)) c Hreach)) as [_ Hf].
  pose proof (reachable_chain_ok body _
    (step_reachable body (RemoveValidator (JFunction g)) c Hreach)) as [_ Hg].
  apply reachable_chain_ok in Hreach. destruct Hreach as [_ Hnd].
  cbn [step] in Hf, Hg. unfold after in *.
  rewrite (removeValidator_without f c Hnd) in Hf |- *.
  rewrite (removeValidator_without g c Hnd) in Hg |- *.
  cbn [snd] in *. split.
  - rewrite removeValidator_absent; [reflexivity|].
    cbn [with_chain _validationChain]. rewrite without_not_In. tauto.
  - rewrite (removeValidator_without g _ Hf).
    rewrite (removeValidator_without f _ Hg).
    cbn [snd with_chain _validationChain _value _lastValue invoked].
    now rewrite without_comm.
Qed.

(** X9.  Once [removeValidator(f)] has returned, a [write] does not call
    [f] any more. *)
Theorem removed_validator_is_not_called c f candidate :
  reachable body c ->
  let c1 := after (removeValidator (JFunction f)) c in
  exists called,
    invoked (after (write body candidate) c1) =
      invoked c1 ++ map (fun g => (g, candidate)) called /\
    ~ In (JFunction f) called.
Proof.
  intros Hreach c1.
  pose proof (reachable_chain_ok body _
    (step_reachable body (RemoveValidator (JFunction f)) c Hreach))
    as [Hfun1 _].
  apply reachable_chain_ok in Hreach. destruct Hreach as [_ Hnd].
  cbn [step] in Hfun1. fold c1 in Hfun1.
  exists (snd (scan body (_validationChain c1) candidate (JBool true))).
  unfold after at 1. rewrite write_scan by exact Hfun1. cbn [snd invoked].
  split; [reflexivity|].
  rewrite scan_prefix. intros Hin. apply In_firstn_In in Hin.
  subst c1. unfold after in Hin.
  rewrite (removeValidator_without f c Hnd) in Hin.
  cbn [snd with_chain _validationChain] in Hin.
  apply without_not_In in Hin. tauto.
Qed.

(** X10.  Adding, one after the other, functions that are pairwise
    different and not yet in the chain appends them to the chain in the
    order of the calls. *)
Theorem addValidator_batch fs : forall c,
  Forall is_function fs -> NoDup fs ->
  (forall f, In f fs -> ~ In f (_validationChain c)) ->
  _validationChain (run body (map AddValidator fs) c) =
    _validationChain c ++ fs.
Proof.
  induction fs as [|f fs IH]; intros c Hfun Hnd Hnew.
  - cbn. now rewrite app_nil_r.
  - inversion Hfun as [|? ? [id ->] Hfun']; subst.
    inversion Hnd as [|? ? Hf Hnd']; subst.
    cbn [map run fold_left step].
    fold (run body (map AddValidator fs)
            (after (addValidator (JFunction id)) c)).
    assert (E : after (addValidator (JFunction id)) c =
                with_chain c (_validationChain c ++ [JFunction id])).
    { unfold after. rewrite addValidator_absent; [reflexivity|].
      apply Hnew. now left. }
    rewrite IH; trivial.
    + rewrite E. cbn [with_chain _validationChain].
      now rewrite <- app_assoc.
    + intros g Hg. rewrite E. cbn [with_chain _validationChain].
      intros Hin. apply in_app_or in Hin. destruct Hin as [Hin|[<-|[]]].
      * apply (Hnew g); [now right | exact Hin].
      * contradiction.
Qed.

(** X11.  Only [write] calls validators: after any calls of [read],
    [hasChanged], [addValidator] and [removeValidator] no validator has
    been called and the current value is the same.  In particular a newly
    added validator is not run on the value the cell already holds. *)
Theorem only_write_calls_validators ops : forall c,
  forallb (fun op => negb (is_write op)) ops = true ->
  invoked (run body ops c) = invoked c /\
  current (run body ops c) = current c.
Proof.
  intros c H. split.
  - revert c H. induction ops as [|op ops IH]; intros c H; [reflexivity|].
    cbn in H. apply andb_true_iff in H. destruct H as [Hop Hops].
    apply negb_true_iff in Hop.
    cbn [run fold_left]. fold (run body ops (step body op c)).
    rewrite IH by exact Hops. now apply step_invoked.
  - unfold current. now rewrite (proj1 (run_frame body ops c H)).
Qed.


(** X13.  [removeValidator(f)] followed by [addValidator(f)] leaves [f]
    at the end of the chain, behind the other validators in the order they
    had: a registered validator is moved to run last. *)
Theorem readded_validator_runs_last c f :
  reachable body c ->
  _validationChain
    (after (addValidator (JFunction f))
       (after (removeValidator (JFunction f)) c)) =
    without (_validationChain c) (JFunction f) ++ [JFunction f].
Proof.
  intros Hreach. apply reachable_chain_ok in Hreach.
  destruct Hreach as [_ Hnd]. unfold after.
  rewrite (removeValidator_without f c Hnd). cbn [snd].
  rewrite addValidator_absent; [reflexivity|].
  cbn [with_chain _validationChain]. rewrite without_not_In. tauto.
Qed.

End Extras.

(** ** The further properties on sample cells *)

Lemma holding5_reachable : reachable Samples.body Samples.holding5.
Proof.
  apply (samples_reachable
           [AddValidator Samples.ge0; AddValidator Samples.le10;
            Write (Samples.num 5)]).
Qed.

Lemma holding5_accepts_7 f :
  In f (_validationChain Samples.holding5) ->
  ~ rejects Samples.body f (Samples.num 7).
Proof. intros [<-|[<-|[]]]; vm_compute; discriminate. Qed.

(** The chain [[ge0; le10]] on the candidate 7. *)
Lemma runValidationChain_accepts_iff_witness :
  reachable Samples.body Samples.holding5 /\
  (accepts Samples.body Samples.holding5 (Samples.num 7) = true <->
   forall f, In f (_validationChain Samples.holding5) ->
             ~ rejects Samples.body f (Samples.num 7)).
Proof.
  split; [exact holding5_reachable|].
  exact (proj2 (runValidationChain_accepts_iff Samples.body Samples.holding5
                  (Samples.num 7) holding5_reachable)).
Defined.

(** The chains [[ge0; le10]] and [[le10; ge0]] on the candidate 15. *)
Lemma acceptance_ignores_order_witness :
  reachable Samples.body Samples.holding5 /\
  reachable Samples.body Samples.bounded_rev /\
  (forall f, In f (_validationChain Samples.holding5) <->
             In f (_validationChain Samples.bounded_rev)) /\
  accepts Samples.body Samples.holding5 (Samples.num 15) =
    accepts Samples.body Samples.bounded_rev (Samples.num 15).
Proof.
  assert (Hr : reachable Samples.body Samples.bounded_rev)
    by (apply (samples_reachable
                 [AddValidator Samples.le10; AddValidator Samples.ge0])).
  assert (Hs : forall f, In f (_validationChain Samples.holding5) <->
                         In f (_validationChain Samples.bounded_rev))
    by (intros f; cbn; tauto).
  split; [exact holding5_reachable|]. split; [exact Hr|].
  split; [exact Hs|].
  exact (acceptance_ignores_order Samples.body Samples.holding5
           Samples.bounded_rev (Samples.num 15) holding5_reachable Hr Hs).
Defined.

(** A write of 7 to a cell that holds 5 behind [ge0] and [le10]. *)
Lemma accepted_write_commits_witness :
  reachable Samples.body Samples.holding5 /\
  (forall f, In f (_validationChain Samples.holding5) ->
             ~ rejects Samples.body f (Samples.num 7)) /\
  current (after (write Samples.body (Samples.num 7)) Samples.holding5)
    = Samples.num 7 /\
  _lastValue (after (write Samples.body (Samples.num 7)) Samples.holding5)
    = Samples.num 5.
Proof.
  split; [exact holding5_reachable|]. split; [exact holding5_accepts_7|].
  destruct (accepted_write_commits Samples.body Samples.holding5
              (Samples.num 7) holding5_reachable holding5_accepts_7)
    as (_ & Hc & Hl & _).
  split; [exact Hc | exact Hl].
Defined.

(** A write of 15, which [le10] rejects. *)
Lemma write_never_throws_witness :
  reachable Samples.body Samples.holding5 /\
  completion (write Samples.body (Samples.num 15)) Samples.holding5
    = Return tt /\
  current (after (write Samples.body (Samples.num 15)) Samples.holding5)
    = Samples.num 5.
Proof.
  split; [exact holding5_reachable|].
  destruct (write_never_throws Samples.body Samples.holding5 (Samples.num 15)
              holding5_reachable) as (_ & Hret & Hcur).
  split; [exact Hret | exact Hcur].
Defined.

(** The value 7 written twice. *)
Lemma repeated_write_reports_no_change_witness :
  reachable Samples.body Samples.holding5 /\
  is_NaN (Samples.num 7) = false /\
  completion hasChanged
    (after (write Samples.body (Samples.num 7))
       (after (write Samples.body (Samples.num 7)) Samples.holding5))
    = Return false.
Proof.
  split; [exact holding5_reachable|]. split; [reflexivity|].
  exact (proj2 (repeated_write_reports_no_change Samples.body Samples.holding5
                  (Samples.num 7) holding5_reachable holding5_accepts_7
                  eq_refl)).
Defined.

(** [ge0] removed from the chain [[ge0; le10]]. *)
Lemma removeValidator_deletes_entry_witness :
  reachable Samples.body Samples.holding5 /\
  _validationChain (after (removeValidator Samples.ge0) Samples.holding5)
    = [Samples.le10] /\
  ~ In Samples.ge0
      (_validationChain (after (removeValidator Samples.ge0) Samples.holding5)).
Proof.
  split; [exact holding5_reachable|]. split; [reflexivity|].
  exact (proj1 (proj2 (removeValidator_deletes_entry Samples.body
                         Samples.holding5 1 holding5_reachable))).
Defined.

(** [ge0] and [le10] removed in both orders. *)
Lemma removeValidator_idempotent_and_commutes_witness :
  reachable Samples.body Samples.holding5 /\
  after (removeValidator Samples.le10)
    (after (removeValidator Samples.ge0) Samples.holding5) =
    after (removeValidator Samples.ge0)
      (after (removeValidator Samples.le10) Samples.holding5).
Proof.
  split; [exact holding5_reachable|].
  exact (proj2 (removeValidator_idempotent_and_commutes Samples.body
                  Samples.holding5 1 2 holding5_reachable)).
Defined.

(** [ge0] removed, then -1 written: [ge0] is not called. *)
Lemma removed_validator_is_not_called_witness :
  reachable Samples.body Samples.holding5 /\
  exists called,
    invoked (after (write Samples.body (Samples.num (-1)))
               (after (removeValidator Samples.ge0) Samples.holding5)) =
      invoked (after (removeValidator Samples.ge0) Samples.holding5) ++
      map (fun g => (g, Samples.num (-1))) called /\
    ~ In Samples.ge0 called.
Proof.
  split; [exact holding5_reachable|].
  exact (removed_validator_is_not_called Samples.body Samples.holding5 1
           (Samples.num (-1)) holding5_reachable).
Defined.

(** [ge0] and [le10] added to a cell that has [gt100]. *)
Lemma addValidator_batch_witness :
  Forall is_function [Samples.ge0; Samples.le10] /\
  NoDup [Samples.ge0; Samples.le10] /\
  (forall f, In f [Samples.ge0; Samples.le10] ->
             ~ In f (_validationChain Samples.guarded)) /\
  _validationChain
    (run Samples.body (map AddValidator [Samples.ge0; Samples.le10])
       Samples.guarded) =
    [Samples.gt100; Samples.ge0; Samples.le10].
Proof.
  assert (Hf : Forall is_function [Samples.ge0; Samples.le10])
    by (repeat constructor; eexists; reflexivity).
  assert (Hn : NoDup [Samples.ge0; Samples.le10]).
  { constructor; [intros [H|[]]; discriminate H|].
    constructor; [intros []|constructor]. }
  assert (Hd : forall f, In f [Samples.ge0; Samples.le10] ->
                         ~ In f (_validationChain Samples.guarded))
    by (intros f [<-|[<-|[]]] [H|[]]; discriminate H).
  split; [exact Hf|]. split; [exact Hn|]. split; [exact Hd|].
  exact (addValidator_batch Samples.body [Samples.ge0; Samples.le10]
           Samples.guarded Hf Hn Hd).
Defined.

(** [never] is added to a cell that holds 5, and nothing is called. *)
Lemma only_write_calls_validators_witness :
  forallb (fun op => negb (is_write op))
    [AddValidator Samples.never; HasChanged; Read] = true /\
  invoked (run Samples.body [AddValidator Samples.never; HasChanged; Read]
             Samples.holding5) = invoked Samples.holding5 /\
  current (run Samples.body [AddValidator Samples.never; HasChanged; Read]
             Samples.holding5) = Samples.num 5.
Proof.
  split; [reflexivity|].
  exact (only_write_calls_validators Samples.body
           [AddValidator Samples.never; HasChanged; Read] Samples.holding5
           eq_refl).
Defined.

(** [ge0] removed from and added again to the chain [[ge0; le10]]. *)
Lemma readded_validator_runs_last_witness :
  reachable Samples.body Samples.holding5 /\
  _validationChain
    (after (addValidator Samples.ge0)
       (after (removeValidator Samples.ge0) Samples.holding5)) =
    [Samples.le10; Samples.ge0].
Proof.
  split; [exact holding5_reachable|].
  exact (readded_validator_runs_last Samples.body Samples.holding5 1
           holding5_reachable).
Defined.
